(** * A shallow embedding of [dashboard.py] (governance dashboard)

    The script is a single Streamlit page: it resolves credentials, loads a
    record set from BigQuery or from a local CSV file, renders a sequence of
    display blocks, and on a button click asks Gemini for a summary.

    - Python values of a pandas column are [value]; [py_str] is Python's
      [str] on them (what [astype(str)] produces).
    - A DataFrame is a list of named columns ([frame]); [data["c"] = ...]
      is [set_col], boolean indexing is [filter_rows], [head n] is [head].
    - Streamlit calls and external effects are [event]s appended to a log;
      the script runs in a small state/exception monad [M] whose outcome is
      [Done], [Stopped] ([st.stop()]) or [Raised] (an uncaught exception).
    - The external world (warehouse, file system, Gemini, the button) is an
      [env] record. Emoji in messages are dropped. *)

From Stdlib Require Import List String Ascii ZArith Bool Lia Permutation Sorted.
Import ListNotations.
Open Scope string_scope.

(** ** Python values and [str] *)

Inductive value : Type :=
| VNaN                 (* a missing value: float('nan') *)
| VInt (z : Z)
| VBool (b : bool)
| VStr (s : string).

Definition value_eqb (v w : value) : bool :=
  match v, w with
  | VNaN, VNaN => true
  | VInt a, VInt b => Z.eqb a b
  | VBool a, VBool b => Bool.eqb a b
  | VStr a, VStr b => String.eqb a b
  | _, _ => false
  end.

Definition digit_char (d : N) : ascii := ascii_of_N (48 + d).

(** Decimal digits of [n], prepended to [acc]; [fuel] bounds the number of
    digits (the bit size of [n] is enough). *)
Fixpoint digits_aux (fuel : nat) (n : N) (acc : string) : string :=
  match fuel with
  | O => acc
  | S f =>
      let acc' := String (digit_char (N.modulo n 10)) acc in
      let q := N.div n 10 in
      if N.eqb q 0 then acc' else digits_aux f q acc'
  end.

Definition string_of_N (n : N) : string :=
  digits_aux (S (N.size_nat n)) n EmptyString.

Definition string_of_Z (z : Z) : string :=
  match z with
  | Z.neg p => String "-" (string_of_N (Npos p))
  | _ => string_of_N (Z.to_N z)
  end.

Definition string_of_nat (n : nat) : string := string_of_N (N.of_nat n).

(** Python's [str] on a cell, as [Series.astype(str)] applies it. *)
Definition py_str (v : value) : string :=
  match v with
  | VNaN => "nan"
  | VInt z => string_of_Z z
  | VBool true => "True"
  | VBool false => "False"
  | VStr s => s
  end.

(** ** String methods: [lower], [strip], [contains] (ASCII) *)

Definition lower_char (c : ascii) : ascii :=
  let n := nat_of_ascii c in
  if (65 <=? n)%nat && (n <=? 90)%nat then ascii_of_nat (n + 32) else c.

Fixpoint str_lower (s : string) : string :=
  match s with
  | EmptyString => EmptyString
  | String c s' => String (lower_char c) (str_lower s')
  end.

(** Python's whitespace for [str.strip()]: space, \t, \n, \v, \f, \r. *)
Definition is_space (c : ascii) : bool :=
  let n := nat_of_ascii c in
  (n =? 32)%nat || ((9 <=? n)%nat && (n <=? 13)%nat).

Fixpoint lstrip (s : string) : string :=
  match s with
  | EmptyString => EmptyString
  | String c s' => if is_space c then lstrip s' else s
  end.

Fixpoint str_rev (s : string) : string :=
  match s with
  | EmptyString => EmptyString
  | String c s' => str_rev s' ++ String c EmptyString
  end.

Definition str_strip (s : string) : string := str_rev (lstrip (str_rev (lstrip s))).

Fixpoint is_prefix (p s : string) : bool :=
  match p, s with
  | EmptyString, _ => true
  | String c p', String d s' => Ascii.eqb c d && is_prefix p' s'
  | _, _ => false
  end.

(** [sub in s]; [str.contains("high")] is a regex search, and "high" has no
    regex metacharacter, so it is a substring test. *)
Fixpoint str_contains (sub s : string) : bool :=
  is_prefix sub s ||
  match s with
  | EmptyString => false
  | String _ s' => str_contains sub s'
  end.

(** ** DataFrames *)

(** A DataFrame as its named columns, in order; all columns of a frame
    built by pandas have the same length ([wf_frame]). *)
Definition frame := list (string * list value).

Definition columns (df : frame) : list string := map fst df.

Definition has_col (df : frame) (c : string) : bool :=
  existsb (String.eqb c) (columns df).

Fixpoint get_col (df : frame) (c : string) : option (list value) :=
  match df with
  | [] => None
  | (n, vs) :: df' => if String.eqb c n then Some vs else get_col df' c
  end.

(** [data[c] = vs] on an existing column [c]: the column is replaced where
    it stands; a new column is appended at the end. *)
Fixpoint set_col (df : frame) (c : string) (vs : list value) : frame :=
  match df with
  | [] => [(c, vs)]
  | (n, ws) :: df' =>
      if String.eqb c n then (n, vs) :: df' else (n, ws) :: set_col df' c vs
  end.

Definition nrows (df : frame) : nat :=
  match df with
  | [] => 0
  | (_, vs) :: _ => List.length vs
  end.


Fixpoint mask_filter {A} (mask : list bool) (xs : list A) : list A :=
  match mask, xs with
  | b :: mask', x :: xs' => if b then x :: mask_filter mask' xs' else mask_filter mask' xs'
  | _, _ => []
  end.

(** [df[mask]]: the rows where the boolean mask is true. *)
Definition filter_rows (df : frame) (mask : list bool) : frame :=
  map (fun col => (fst col, mask_filter mask (snd col))) df.

(** [df.head(n)]. *)
Definition head (n : nat) (df : frame) : frame :=
  map (fun col => (fst col, firstn n (snd col))) df.

(** [Series.value_counts()]: the distinct non-missing values with their
    counts, by decreasing count; ties keep the order of first appearance. *)
Definition count_of (v : value) (vs : list value) : nat :=
  List.length (filter (value_eqb v) vs).

Fixpoint distinct (seen : list value) (vs : list value) : list value :=
  match vs with
  | [] => []
  | v :: vs' =>
      if existsb (value_eqb v) seen then distinct seen vs'
      else v :: distinct (v :: seen) vs'
  end.

Fixpoint insert_desc (p : value * nat) (l : list (value * nat)) : list (value * nat) :=
  match l with
  | [] => [p]
  | q :: l' => if (snd p <=? snd q)%nat then q :: insert_desc p l' else p :: l
  end.

Fixpoint sort_desc_aux (acc l : list (value * nat)) : list (value * nat) :=
  match l with
  | [] => acc
  | p :: l' => sort_desc_aux (insert_desc p acc) l'
  end.

Definition value_counts (vs : list value) : list (value * nat) :=
  sort_desc_aux [] (map (fun v => (v, count_of v vs)) (distinct [VNaN] vs)).

(** ** Streamlit calls, effects and the script monad *)

Inductive event : Type :=
| EConfigure (api_key : string)          (* genai.configure *)
| ETitle (s : string)
| EWrite (s : string)
| EInfo (s : string)
| ESuccess (s : string)
| EWarning (s : string)
| EError (s : string)
| EHeader (s : string)
| ESubheader (s : string)
| EMarkdown (s : string)
| EDataframe (df : frame)                (* st.dataframe *)
| EPie (counts : list (value * nat))     (* pie chart through st.pyplot *)
| EBar (counts : list (value * nat))     (* st.bar_chart *)
| ETable (counts : list (value * nat))   (* st.table *)
| EQuery (sql : string)                  (* client.query(...).to_dataframe() *)
| EReadCsv (path : string)               (* pd.read_csv *)
| EGenerate (prompt : string).           (* model.generate_content *)

(** The exceptions the script can meet; all derive from [Exception]. *)
Inductive exn : Type :=
| FileNotFoundError (msg : string)
| OtherError (cls msg : string).

Definition exn_str (e : exn) : string :=
  match e with FileNotFoundError m => m | OtherError _ m => m end.

Inductive outcome (A : Type) : Type :=
| Done (a : A) (log : list event)
| Stopped (log : list event)            (* st.stop() *)
| Raised (e : exn) (log : list event).  (* an exception escaping the script *)
Arguments Done {A}.
Arguments Stopped {A}.
Arguments Raised {A}.

Definition M (A : Type) : Type := list event -> outcome A.

Definition ret {A} (a : A) : M A := fun log => Done a log.

Definition bind {A B} (m : M A) (k : A -> M B) : M B :=
  fun log =>
    match m log with
    | Done a log' => k a log'
    | Stopped log' => Stopped log'
    | Raised e log' => Raised e log'
    end.

Definition emit (e : event) : M unit := fun log => Done tt (log ++ [e]).
Definition raise {A} (e : exn) : M A := fun log => Raised e log.
Definition st_stop {A} : M A := fun log => Stopped log.

(** [try: m except Exception as e: h e]. *)
Definition try_except {A} (m : M A) (h : exn -> M A) : M A :=
  fun log =>
    match m log with
    | Raised e log' => h e log'
    | o => o
    end.

Fixpoint emit_all (es : list event) : M unit :=
  match es with
  | [] => ret tt
  | e :: es' => bind (emit e) (fun _ => emit_all es')
  end.

Declare Scope script_scope.
Delimit Scope script_scope with script.
Notation "x <- m ;; k" := (bind m (fun x => k))
  (at level 61, m at next level, right associativity) : script_scope.
Notation "m ;; k" := (bind m (fun _ => k))
  (at level 61, right associativity) : script_scope.
Open Scope script_scope.

(** ** The external world *)

Record env : Type := {
  env_api_key : option string;             (* os.getenv("GOOGLE_API_KEY") *)
  env_credentials : option string;         (* os.getenv("GOOGLE_APPLICATION_CREDENTIALS") *)
  env_path_exists : string -> bool;        (* os.path.exists *)
  (* the contents of a warehouse table, or the exception raised by
     [bigquery.Client(...)] or by the query *)
  env_warehouse : string -> exn + frame;
  env_csv : string -> exn + frame;         (* pd.read_csv *)
  env_clicked : bool;                      (* st.button("Generate AI Summary") *)
  env_to_string : frame -> string;         (* DataFrame.to_string(index=False) *)
  env_model : string -> exn + unit;        (* genai.GenerativeModel(name) *)
  (* model.generate_content(prompt); the response's [.text] may raise *)
  env_generate : string -> exn + (exn + string)
}.

(** ** The warehouse query *)

(** A [SELECT * FROM t [LIMIT n]] statement and its SQL text. *)
Record select_stmt : Type := { sel_table : string; sel_limit : option nat }.

Definition render_sql (s : select_stmt) : string :=
  "SELECT * FROM `" ++ sel_table s ++ "`" ++
  match sel_limit s with
  | Some n => " LIMIT " ++ string_of_nat n
  | None => ""
  end.

(** The warehouse runs a select statement: the table's rows, cut to the
    limit when there is one. *)
Definition exec_select (e : env) (s : select_stmt) : exn + frame :=
  match env_warehouse e (sel_table s) with
  | inl ex => inl ex
  | inr tbl => inr (match sel_limit s with Some n => head n tbl | None => tbl end)
  end.

Definition PROJECT_ID := "second-sandbox-477217-h7".
Definition DATASET_ID := "governance_data".
Definition TABLE_ID := "predicted_priorities".
Definition table_ref := PROJECT_ID ++ "." ++ DATASET_ID ++ "." ++ TABLE_ID.

Definition bq_stmt : select_stmt := {| sel_table := table_ref; sel_limit := Some 1000%nat |}.
Definition query : string := render_sql bq_stmt.

Definition csv_path := "predicted_priorities.csv".

(** ** ENV SETUP and PAGE HEADER *)

Definition setup (e : env) : M unit :=
  (match env_api_key e with
   | Some k => if String.eqb k "" then
                 emit (EError "Missing Gemini API key. Please set GOOGLE_API_KEY in .env file.")
               else emit (EConfigure k)
   | None => emit (EError "Missing Gemini API key. Please set GOOGLE_API_KEY in .env file.")
   end) ;;
  (match env_credentials e with
   | Some p => if negb (String.eqb p "") && env_path_exists e p then ret tt
               else emit (EWarning "Google credentials file not found. Will try local CSV instead.")
   | None => emit (EWarning "Google credentials file not found. Will try local CSV instead.")
   end) ;;
  emit (ETitle "AI-Powered Governance Dashboard") ;;
  emit (EWrite "Transforming Citizen Service Delivery with Predictive Insights").

(** ** LOAD DATA *)

Definition fetch_msg := "Fetching data from BigQuery table `" ++ table_ref ++ "` ...".
Definition bq_ok_msg := "Data loaded from BigQuery successfully!".
Definition bq_warn_msg (ex : exn) :=
  "BigQuery not configured - using local CSV file. Error: " ++ exn_str ex.
Definition csv_ok_msg := "Local CSV file loaded successfully.".
Definition no_csv_msg :=
  "No BigQuery connection and no local CSV found. Please check configuration.".

Definition load_data (e : env) : M frame :=
  emit (EInfo fetch_msg) ;;
  emit (EQuery query) ;;
  match exec_select e bq_stmt with
  | inr data => emit (ESuccess bq_ok_msg) ;; ret data
  | inl ex =>
      emit (EWarning (bq_warn_msg ex)) ;;
      emit (EReadCsv csv_path) ;;
      match env_csv e csv_path with
      | inr data => emit (ESuccess csv_ok_msg) ;; ret data
      | inl (FileNotFoundError _) => emit (EError no_csv_msg) ;; st_stop
      | inl ex' => raise ex'   (* only FileNotFoundError is caught *)
      end
  end.

(** ** DASHBOARD SECTIONS: pure blocks, each returning what it renders and
    the (possibly reassigned) [data]. *)

Definition col (df : frame) (c : string) : list value :=
  match get_col df c with Some vs => vs | None => [] end.

Definition summary_block (data : frame) : list event * frame :=
  ([EHeader "Service Request Summary"; EDataframe data], data).

Definition priority_block (data : frame) : list event * frame :=
  (ESubheader "Priority Breakdown" ::
   (if has_col data "priority_score"
    then [EPie (value_counts (col data "priority_score"))]
    else [EInfo "Column 'priority_score' not found in data."]), data).

(** [astype(str).str.strip().str.lower()] on one cell. *)
Definition norm_resolved (v : value) : value := VStr (str_lower (str_strip (py_str v))).

(** [isin(["no", "false", "0"])] on one cell. *)
Definition is_unresolved (v : value) : bool :=
  existsb (value_eqb v) [VStr "no"; VStr "false"; VStr "0"].

Definition department_block (data : frame) : list event * frame :=
  if has_col data "resolved" && has_col data "department" then
    let data1 := set_col data "resolved" (map norm_resolved (col data "resolved")) in
    let unresolved_filter := map is_unresolved (col data1 "resolved") in
    let unresolved := value_counts (col (filter_rows data1 unresolved_filter) "department") in
    (ESubheader "Department-wise Pending Issues" ::
     (match unresolved with
      | [] => [EInfo "No unresolved issues found."]
      | _ => [EBar unresolved]
      end), data1)
  else
    ([ESubheader "Department-wise Pending Issues";
      EInfo "Columns 'resolved' or 'department' not found in data."], data).

(** [astype(str)] on one cell. *)
Definition to_str_cell (v : value) : value := VStr (py_str v).

(** [.str.lower().str.contains("high")] on one (string) cell. *)
Definition is_high (v : value) : bool := str_contains "high" (str_lower (py_str v)).

Definition high_priority_of (data1 : frame) : frame :=
  filter_rows data1 (map is_high (col data1 "priority_score")).

Definition insights_block (data : frame) : list event * frame :=
  if has_col data "priority_score" then
    let data1 := set_col data "priority_score" (map to_str_cell (col data "priority_score")) in
    let high_priority := high_priority_of data1 in
    (ESubheader "Key Insights" ::
     EMarkdown ("Total High Priority Cases: " ++ string_of_nat (nrows high_priority)) ::
     (if has_col high_priority "department"
      then [EMarkdown "Departments with Most High Priority Issues:";
            ETable (firstn 5 (value_counts (col high_priority "department")))]
      else []), data1)
  else ([ESubheader "Key Insights"], data).

Definition severity_block (data : frame) : list event * frame :=
  if has_col data "severity" then
    ([ESubheader "Severity Level Breakdown"; EBar (value_counts (col data "severity"))], data)
  else ([], data).

Inductive block : Type := Summary | Priority | Department | Insights | Severity.

Definition run_block (b : block) : frame -> list event * frame :=
  match b with
  | Summary => summary_block
  | Priority => priority_block
  | Department => department_block
  | Insights => insights_block
  | Severity => severity_block
  end.

Fixpoint run_blocks (bs : list block) (data : frame) : list event * frame :=
  match bs with
  | [] => ([], data)
  | b :: bs' =>
      let (ev1, data1) := run_block b data in
      let (ev2, data2) := run_blocks bs' data1 in
      ((ev1 ++ ev2)%list, data2)
  end.

Definition script_blocks : list block := [Summary; Priority; Department; Insights; Severity].

(** ** Gemini AI Summary *)

Definition prompt_template : string :=
  "Summarize key trends and citizen issues based on this service dataset:" ++
  String (ascii_of_nat 10) EmptyString.

Definition model_name := "gemini-2.5-flash".

Definition ai_body (e : env) (data : frame) : M unit :=
  let text_summary := env_to_string e (head 50 data) in
  let prompt := prompt_template ++ text_summary in
  match env_model e model_name with
  | inl ex => raise ex
  | inr _ =>
      emit (EGenerate prompt) ;;
      match env_generate e prompt with
      | inl ex => raise ex
      | inr response =>
          emit (ESuccess "Gemini AI Summary Generated") ;;
          match response with
          | inl ex => raise ex
          | inr text => emit (EWrite text)
          end
      end
  end.

Definition ai_block (e : env) (data : frame) : M unit :=
  emit (ESubheader "Gemini AI Summary of Citizen Feedback") ;;
  if env_clicked e then
    try_except (ai_body e data)
      (fun ex => emit (EError ("Gemini summarization failed: " ++ exn_str ex)))
  else ret tt.

(** ** The whole page, one run of the script *)

Definition final_msg := "Dashboard ready and running successfully!".

(** Everything after LOAD DATA, on the loaded [data]. *)
Definition after_load (e : env) (data : frame) : M unit :=
  let (evs, data') := run_blocks script_blocks data in
  emit_all evs ;;
  ai_block e data' ;;
  emit (EInfo final_msg).

Definition script (e : env) : M unit :=
  setup e ;;
  data <- load_data e ;;
  after_load e data.

Definition run (e : env) : outcome unit := script e [].

Definition log_of {A} (o : outcome A) : list event :=
  match o with Done _ l | Stopped l | Raised _ l => l end.

(** The data the script goes on with after LOAD DATA, if it goes on. *)
Definition loaded (e : env) : option frame :=
  match load_data e [] with Done d _ => Some d | _ => None end.

(** The data the AI summary sees: [data] after the display blocks. *)
Definition data_at_summary (data : frame) : frame := snd (run_blocks script_blocks data).

(** ** Logs and effects *)

(** [pre] put in front of the log of an outcome. *)
Definition shift {A} (pre : list event) (o : outcome A) : outcome A :=
  match o with
  | Done a l => Done a (pre ++ l)
  | Stopped l => Stopped (pre ++ l)
  | Raised e l => Raised e (pre ++ l)
  end.

(** A program that only appends to the log it is given. *)
Definition shiftable {A} (m : M A) : Prop := forall log, m log = shift log (m []).

Definition setup_log (e : env) : list event := log_of (setup e []).
Definition ai_log (e : env) (d : frame) : list event := log_of (ai_block e d []).



(** Events that touch neither the warehouse nor the file system. *)
Definition no_io (ev : event) : bool :=
  match ev with EQuery _ | EReadCsv _ => false | _ => true end.

(** Events that are not a call of the text-generation API. *)
Definition no_generate (ev : event) : bool :=
  match ev with EGenerate _ => false | _ => true end.

(** The prompt [ai_body] builds, and the exception it meets, if any. *)
Definition ai_prompt (e : env) (data : frame) : string :=
  prompt_template ++ env_to_string e (head 50 data).


Definition ai_error_msg (ex : exn) : string := "Gemini summarization failed: " ++ exn_str ex.




(** The department block's test on one [resolved] cell. *)
Definition unresolved_row (v : value) : bool := is_unresolved (norm_resolved v).

(** A cell [value_counts] does not drop. *)
Definition non_missing (v : value) : bool := negb (value_eqb v VNaN).

(** [value_counts] before its sort. *)
Definition value_counts_raw (vs : list value) : list (value * nat) :=
  map (fun v => (v, count_of v vs)) (distinct [VNaN] vs).

(** A list of (value, count) pairs by non-increasing count. *)
Definition counts_desc : list (value * nat) -> Prop :=
  StronglySorted (fun p q => (snd q <= snd p)%nat).



(** ** Fixtures *)

Definition sample : frame :=
  [("department", [VStr "Water"; VStr "Roads"; VStr "Water"]);
   ("resolved", [VStr " No"; VBool true; VInt 0]);
   ("priority_score", [VStr "High"; VInt 3; VNaN]);
   ("severity", [VStr "Low"; VStr "Low"; VStr "High"])].

(** No warehouse credentials; the CSV file is [csv_contents]. *)
Definition env_csv_only (csv_contents : exn + frame) : env := {|
  env_api_key := Some "key";
  env_credentials := None;
  env_path_exists := fun _ => false;
  env_warehouse := fun _ => inl (OtherError "DefaultCredentialsError" "credentials not found");
  env_csv := fun _ => csv_contents;
  env_clicked := true;
  env_to_string := fun d => string_of_nat (nrows d);
  env_model := fun _ => inr tt;
  env_generate := fun _ => inr (inr "summary") |}.

Definition env_sample := env_csv_only (inr sample).


(** The Gemini call answers, but the response has no text (blocked). *)
Definition env_blocked_response : env := {|
  env_api_key := Some "key"; env_credentials := None; env_path_exists := fun _ => false;
  env_warehouse := fun _ => inr sample; env_csv := fun _ => inr sample;
  env_clicked := true; env_to_string := fun _ => "";
  env_model := fun _ => inr tt;
  env_generate := fun _ => inr (inl (OtherError "ValueError" "response.text: no valid Part"))
|}.

(** * Properties *)

Open Scope list_scope.

(** ** The embedding on small inputs *)

Example py_str_ex1 : py_str (VInt (-120)) = "-120". Proof. reflexivity. Qed.
Example py_str_ex2 : py_str (VInt 0) = "0". Proof. reflexivity. Qed.
Example strip_ex : str_strip "  No  " = "No". Proof. reflexivity. Qed.
Example contains_ex : str_contains "high" (str_lower "Very HIGH") = true.
Proof. reflexivity. Qed.

Example value_counts_ex :
  value_counts ([VStr "a"; VNaN; VStr "b"; VStr "b"; VStr "a"; VStr "c"; VStr "b"])%list
  = [(VStr "b", 3%nat); (VStr "a", 2%nat); (VStr "c", 1%nat)].
Proof. reflexivity. Qed.

(** ** Logs only grow at the end *)

Lemma shift_shift {A} (p q : list event) (o : outcome A) :
  shift p (shift q o) = shift (p ++ q) o.
Proof. destruct o; simpl; now rewrite app_assoc. Qed.

Lemma ret_shiftable {A} (a : A) : shiftable (ret a).
Proof. intro log; unfold ret; simpl; now rewrite app_nil_r. Qed.

Lemma emit_shiftable ev : shiftable (emit ev).
Proof. intro log; reflexivity. Qed.

Lemma raise_shiftable {A} ex : shiftable (@raise A ex).
Proof. intro log; unfold raise; simpl; now rewrite app_nil_r. Qed.

Lemma stop_shiftable {A} : shiftable (@st_stop A).
Proof. intro log; unfold st_stop; simpl; now rewrite app_nil_r. Qed.

Lemma bind_shiftable {A B} (m : M A) (k : A -> M B) :
  shiftable m -> (forall a, shiftable (k a)) -> shiftable (bind m k).
Proof.
  intros Hm Hk log; unfold bind.
  rewrite (Hm log); destruct (m []) as [a l|l|ex l]; simpl; auto.
  rewrite (Hk a (log ++ l)), (Hk a l). now rewrite shift_shift.
Qed.

Lemma try_except_shiftable {A} (m : M A) (h : exn -> M A) :
  shiftable m -> (forall ex, shiftable (h ex)) -> shiftable (try_except m h).
Proof.
  intros Hm Hh log; unfold try_except.
  rewrite (Hm log); destruct (m []) as [a l|l|ex l]; simpl; auto.
  rewrite (Hh ex (log ++ l)), (Hh ex l). now rewrite shift_shift.
Qed.

Lemma emit_all_shiftable es : shiftable (emit_all es).
Proof.
  induction es; simpl.
  - apply ret_shiftable.
  - apply bind_shiftable; [apply emit_shiftable | intros; exact IHes].
Qed.

Lemma emit_all_run es log : emit_all es log = Done tt (log ++ es).
Proof.
  revert log; induction es as [|ev es IH]; intro log; simpl.
  - now rewrite app_nil_r.
  - unfold bind, emit; rewrite IH. now rewrite <- app_assoc.
Qed.

Create HintDb shiftable.
#[local] Hint Resolve ret_shiftable emit_shiftable raise_shiftable stop_shiftable
  emit_all_shiftable : shiftable.

Ltac shiftable_tac :=
  repeat match goal with
  | |- shiftable (bind _ _) => apply bind_shiftable; [|intro]
  | |- shiftable (try_except _ _) => apply try_except_shiftable; [|intro]
  | |- shiftable (match ?x with _ => _ end) => destruct x
  | |- shiftable (if ?b then _ else _) => destruct b
  | |- shiftable _ => solve [auto with shiftable]
  end.

Lemma setup_shiftable e : shiftable (setup e).
Proof. unfold setup; shiftable_tac. Qed.

Lemma load_data_shiftable e : shiftable (load_data e).
Proof. unfold load_data; shiftable_tac. Qed.

Lemma ai_body_shiftable e d : shiftable (ai_body e d).
Proof. unfold ai_body; shiftable_tac. Qed.

Lemma ai_block_shiftable e d : shiftable (ai_block e d).
Proof. unfold ai_block; shiftable_tac; apply ai_body_shiftable. Qed.

Lemma after_load_shiftable e d : shiftable (after_load e d).
Proof.
  unfold after_load; destruct (run_blocks script_blocks d).
  shiftable_tac; apply ai_block_shiftable.
Qed.

(** ** One run, piece by piece *)


Lemma setup_done e : setup e [] = Done tt (setup_log e).
Proof.
  unfold setup_log, setup, bind, emit, ret.
  destruct (env_api_key e) as [k|]; [destruct (String.eqb k "")|];
  (destruct (env_credentials e) as [p|];
   [destruct (negb (String.eqb p "") && env_path_exists e p)|]); reflexivity.
Qed.

Lemma ai_body_cases e d :
  (exists l, ai_body e d [] = Done tt l) \/ (exists ex l, ai_body e d [] = Raised ex l).
Proof.
  unfold ai_body, bind, emit, raise.
  destruct (env_model e model_name); [right; eauto|].
  destruct (env_generate e _) as [ex|[ex|t]]; [right; eauto | right; eauto | left; eauto].
Qed.

Lemma ai_block_done e d : ai_block e d [] = Done tt (ai_log e d).
Proof.
  unfold ai_log, ai_block, bind, emit, ret.
  destruct (env_clicked e); [|reflexivity].
  unfold try_except. rewrite (ai_body_shiftable e d).
  destruct (ai_body_cases e d) as [[l ->]|[ex [l ->]]]; reflexivity.
Qed.

Lemma after_load_run e d log :
  after_load e d log =
  Done tt (log ++ fst (run_blocks script_blocks d) ++ ai_log e (data_at_summary d)
               ++ [EInfo final_msg]).
Proof.
  unfold after_load, data_at_summary.
  destruct (run_blocks script_blocks d) as [evs d'] eqn:Hb; simpl.
  unfold bind. rewrite emit_all_run.
  rewrite (ai_block_shiftable e d' (log ++ evs)), ai_block_done; simpl.
  now rewrite !app_assoc.
Qed.

Lemma load_data_cases e :
  load_data e [] =
  match exec_select e bq_stmt with
  | inr d => Done d [EInfo fetch_msg; EQuery query; ESuccess bq_ok_msg]
  | inl ex =>
      match env_csv e csv_path with
      | inr d => Done d [EInfo fetch_msg; EQuery query; EWarning (bq_warn_msg ex);
                         EReadCsv csv_path; ESuccess csv_ok_msg]
      | inl (FileNotFoundError _) =>
          Stopped [EInfo fetch_msg; EQuery query; EWarning (bq_warn_msg ex);
                   EReadCsv csv_path; EError no_csv_msg]
      | inl ex' => Raised ex' [EInfo fetch_msg; EQuery query; EWarning (bq_warn_msg ex);
                               EReadCsv csv_path]
      end
  end.
Proof.
  unfold load_data, bind, emit, ret, raise, st_stop; simpl.
  destruct (exec_select e bq_stmt); [|reflexivity].
  destruct (env_csv e csv_path) as [[m|c m]|]; reflexivity.
Qed.

Lemma run_decomp e :
  run e =
  match load_data e [] with
  | Done d l => after_load e d (setup_log e ++ l)
  | Stopped l => Stopped (setup_log e ++ l)
  | Raised ex l => Raised ex (setup_log e ++ l)
  end.
Proof.
  unfold run, script, bind at 1. rewrite setup_done.
  unfold bind. rewrite (load_data_shiftable e (setup_log e)).
  destruct (load_data e []); reflexivity.
Qed.

(** ** Which events each piece emits *)

Ltac split_all :=
  repeat match goal with
  | |- context [if ?c then _ else _] => destruct c
  | |- context [match ?x with _ => _ end] => destruct x
  end.



Lemma setup_log_no_io e : forallb no_io (setup_log e) = true /\ forallb no_generate (setup_log e) = true.
Proof.
  unfold setup_log, setup, bind, emit, ret.
  destruct (env_api_key e) as [k|]; [destruct (String.eqb k "")|];
  (destruct (env_credentials e) as [p|];
   [destruct (negb (String.eqb p "") && env_path_exists e p)|]); split; reflexivity.
Qed.

Lemma run_block_events b d :
  forallb no_io (fst (run_block b d)) = true /\ forallb no_generate (fst (run_block b d)) = true.
Proof.
  destruct b; simpl;
  unfold summary_block, priority_block, department_block, insights_block, severity_block;
  split_all; split; reflexivity.
Qed.

Lemma run_blocks_events bs d :
  forallb no_io (fst (run_blocks bs d)) = true /\ forallb no_generate (fst (run_blocks bs d)) = true.
Proof.
  revert d; induction bs as [|b bs IH]; intro d; simpl; [split; reflexivity|].
  destruct (run_block b d) as [ev1 d1] eqn:Hb.
  destruct (run_blocks bs d1) as [ev2 d2] eqn:Hbs; simpl.
  pose proof (run_block_events b d) as [H1 H2]; rewrite Hb in H1, H2; simpl in H1, H2.
  pose proof (IH d1) as [H3 H4]; rewrite Hbs in H3, H4; simpl in H3, H4.
  rewrite !forallb_app, H1, H2, H3, H4. split; reflexivity.
Qed.

Lemma ai_log_no_io e d : forallb no_io (ai_log e d) = true.
Proof.
  unfold ai_log, ai_block, bind, emit, ret, try_except, ai_body, raise.
  destruct (env_clicked e); [|reflexivity].
  destruct (env_model e model_name); [reflexivity|].
  destruct (env_generate e _) as [ex|[ex|t]]; reflexivity.
Qed.

(** ** C1 *)




(** ** C6 *)

(** C6. The warehouse query is the fixed statement
    [SELECT * FROM `<project>.<dataset>.<table>` LIMIT 1000], the only query
    any run sends, and the record set loaded remotely has at most 1000 rows. *)
Theorem remote_query_fixed :
  query = "SELECT * FROM `second-sandbox-477217-h7.governance_data.predicted_priorities` LIMIT 1000"
  /\ (forall e q, In (EQuery q) (log_of (run e)) -> q = query)
  /\ (forall e d, exec_select e bq_stmt = inr d -> (nrows d <= 1000)%nat).
Proof.
  split; [reflexivity|split].
  - intros e q Hin. rewrite run_decomp, load_data_cases in Hin.
    pose proof (setup_log_no_io e) as [Hs _].
    assert (Hnot : forall l, forallb no_io l = true -> ~ In (EQuery q) l).
    { intros l Hl Hq. apply forallb_forall with (x := EQuery q) in Hl; [discriminate|exact Hq]. }
    destruct (exec_select e bq_stmt) as [ex|d];
    [destruct (env_csv e csv_path) as [[m|c m]|d]|];
    try rewrite after_load_run in Hin; cbn [log_of] in Hin;
    repeat (apply in_app_or in Hin as [Hin|Hin]);
    try solve [exfalso; eapply Hnot; [|exact Hin];
               first [exact Hs | apply ai_log_no_io | apply run_blocks_events | reflexivity]];
    simpl in Hin; repeat destruct Hin as [Hin|Hin]; try discriminate; try contradiction;
    injection Hin as <-; reflexivity.
  - intros e d H. unfold exec_select in H.
    destruct (env_warehouse e (sel_table bq_stmt)) as [ex|tbl]; [discriminate|].
    inversion H; subst. destruct tbl as [|[n vs] tbl]; [simpl; lia|].
    unfold head; cbn [map nrows fst snd sel_limit bq_stmt]. rewrite length_firstn. lia.
Qed.

Lemma remote_query_fixed_witness :
  (nrows (head 1000 sample) <= 1000)%nat.
Proof.
  apply (proj2 (proj2 remote_query_fixed)
           {| env_api_key := None; env_credentials := None; env_path_exists := fun _ => false;
              env_warehouse := fun _ => inr sample; env_csv := fun _ => inr sample;
              env_clicked := false; env_to_string := fun _ => "";
              env_model := fun _ => inr tt; env_generate := fun _ => inr (inr "") |}).
  reflexivity.
Defined.

(** ** C7 *)



(** ** C4 *)




(** ** Columns under [set_col], [filter_rows] and [head] *)

Lemma get_col_set_col df c vs n :
  get_col (set_col df c vs) n = if String.eqb n c then Some vs else get_col df n.
Proof.
  induction df as [|[m ws] df IH]; simpl.
  - reflexivity.
  - destruct (String.eqb c m) eqn:Hcm; simpl.
    + apply String.eqb_eq in Hcm; subst m. destruct (String.eqb n c); reflexivity.
    + rewrite IH. destruct (String.eqb n m) eqn:Hnm; [|reflexivity].
      apply String.eqb_eq in Hnm; subst m.
      destruct (String.eqb n c) eqn:Hnc; [|reflexivity].
      apply String.eqb_eq in Hnc; subst c. rewrite String.eqb_refl in Hcm; discriminate.
Qed.

Lemma has_col_get_col df n :
  has_col df n = match get_col df n with Some _ => true | None => false end.
Proof.
  induction df as [|[m ws] df IH]; simpl; [reflexivity|].
  unfold has_col in *; simpl. destruct (String.eqb n m); simpl; auto.
Qed.


Lemma has_col_set_col df c vs n :
  has_col (set_col df c vs) n = String.eqb n c || has_col df n.
Proof.
  rewrite !has_col_get_col, get_col_set_col. destruct (String.eqb n c); reflexivity.
Qed.

Lemma col_set_col df c vs n :
  col (set_col df c vs) n = if String.eqb n c then vs else col df n.
Proof. unfold col; rewrite get_col_set_col; destruct (String.eqb n c); reflexivity. Qed.


Lemma get_col_filter_rows df mask n :
  get_col (filter_rows df mask) n = option_map (mask_filter mask) (get_col df n).
Proof.
  induction df as [|[m ws] df IH]; simpl; [reflexivity|].
  destruct (String.eqb n m); [reflexivity|exact IH].
Qed.

Lemma col_filter_rows df mask n : col (filter_rows df mask) n = mask_filter mask (col df n).
Proof.
  unfold col; rewrite get_col_filter_rows.
  destruct (get_col df n); simpl; [reflexivity|destruct mask; reflexivity].
Qed.

Lemma has_col_filter_rows df mask n : has_col (filter_rows df mask) n = has_col df n.
Proof. rewrite !has_col_get_col, get_col_filter_rows; destruct (get_col df n); reflexivity. Qed.

Lemma get_col_head k df n : get_col (head k df) n = option_map (firstn k) (get_col df n).
Proof.
  induction df as [|[m ws] df IH]; simpl; [reflexivity|].
  destruct (String.eqb n m); [reflexivity|exact IH].
Qed.

Lemma columns_head k df : columns (head k df) = columns df.
Proof. unfold columns, head. rewrite map_map. reflexivity. Qed.

(** [head k] keeps every column and at most the first [k] cells of each. *)
Lemma head_prefix k df :
  columns (head k df) = columns df /\ (nrows (head k df) <= k)%nat /\
  forall c vs, get_col (head k df) c = Some vs ->
    (List.length vs <= k)%nat /\ exists rest, get_col df c = Some (vs ++ rest).
Proof.
  split; [apply columns_head|split].
  - destruct df as [|[m ws] df]; simpl; [lia|]. rewrite length_firstn; lia.
  - intros c vs H. rewrite get_col_head in H.
    destruct (get_col df c) as [ws|]; simpl in H; [|discriminate].
    injection H as <-. split; [rewrite length_firstn; lia|].
    exists (skipn k ws). now rewrite firstn_skipn.
Qed.

(** ** What the AI summary is sent *)

Lemma ai_log_generate e d p : In (EGenerate p) (ai_log e d) -> p = ai_prompt e d.
Proof.
  unfold ai_log, ai_block, bind, emit, ret, try_except, ai_body, raise, ai_prompt.
  destruct (env_clicked e);
    [|simpl; intro H; repeat destruct H as [H|H]; try discriminate; contradiction].
  destruct (env_model e model_name);
    [simpl; intro H; repeat destruct H as [H|H]; try discriminate; contradiction|].
  destruct (env_generate e _) as [ex|[ex|t]]; simpl;
  intro H; repeat destruct H as [H|H]; try discriminate; try contradiction;
  injection H as <-; reflexivity.
Qed.

Lemma not_in_no_generate l p : forallb no_generate l = true -> ~ In (EGenerate p) l.
Proof.
  intros Hl Hin. apply forallb_forall with (x := EGenerate p) in Hl; [discriminate|exact Hin].
Qed.

(** Any text sent to the text-generation API in a run is the prompt built
    from the data loaded in that run, after the display blocks. *)
Lemma run_generate e p :
  In (EGenerate p) (log_of (run e)) ->
  exists d, loaded e = Some d /\ p = ai_prompt e (data_at_summary d).
Proof.
  intro Hin. unfold loaded. rewrite run_decomp in Hin. rewrite load_data_cases in Hin |- *.
  pose proof (setup_log_no_io e) as [_ Hs].
  destruct (exec_select e bq_stmt) as [ex|d];
  [destruct (env_csv e csv_path) as [[m|c m]|d]|];
  try rewrite after_load_run in Hin; cbn [log_of] in Hin;
  repeat (apply in_app_or in Hin as [Hin|Hin]);
  try solve [exfalso; eapply not_in_no_generate; [|exact Hin];
             first [exact Hs | apply run_blocks_events | reflexivity]];
  try solve [exfalso; simpl in Hin; repeat destruct Hin as [Hin|Hin]; discriminate];
  exists d; split; [reflexivity| |reflexivity| ]; apply ai_log_generate; exact Hin.
Qed.

(** ** The data after the display blocks *)

Lemma department_effect d :
  snd (department_block d) =
  if has_col d "resolved" && has_col d "department"
  then set_col d "resolved" (map norm_resolved (col d "resolved")) else d.
Proof. unfold department_block; destruct (_ && _); [destruct value_counts|]; reflexivity. Qed.

Lemma insights_effect d :
  snd (insights_block d) =
  if has_col d "priority_score"
  then set_col d "priority_score" (map to_str_cell (col d "priority_score")) else d.
Proof. unfold insights_block; destruct (has_col d "priority_score"); reflexivity. Qed.




(** ** C5 *)

(** C5. Whenever a run calls the text-generation API, the text sent is the
    fixed template followed by the rendering of [head 50] of the loaded data:
    every column of the rendered frame is a prefix, of at most 50 cells, of
    the corresponding column of the data. *)
Theorem ai_prompt_truncated e p :
  In (EGenerate p) (log_of (run e)) ->
  exists d, loaded e = Some d /\
    let view := head 50 (data_at_summary d) in
    p = (prompt_template ++ env_to_string e view)%string
    /\ columns view = columns (data_at_summary d)
    /\ (nrows view <= 50)%nat
    /\ forall c vs, get_col view c = Some vs ->
         (List.length vs <= 50)%nat /\ exists rest, get_col (data_at_summary d) c = Some (vs ++ rest).
Proof.
  intro Hin. destruct (run_generate e p Hin) as [d [Hd Hp]].
  exists d; split; [exact Hd|]. cbv zeta. split; [exact Hp|]. apply head_prefix.
Qed.

Lemma ai_prompt_truncated_witness :
  In (EGenerate (ai_prompt env_sample (data_at_summary sample))) (log_of (run env_sample))
  /\ exists d, loaded env_sample = Some d /\
     ai_prompt env_sample (data_at_summary sample)
     = (prompt_template ++ env_to_string env_sample (head 50 (data_at_summary d)))%string.
Proof.
  assert (H : In (EGenerate (ai_prompt env_sample (data_at_summary sample))) (log_of (run env_sample))).
  { vm_compute. repeat (first [left; reflexivity | right]). }
  split; [exact H|].
  destruct (ai_prompt_truncated _ _ H) as [d [Hd [Hp _]]].
  exists d; split; [exact Hd|exact Hp].
Defined.

(** ** C8 *)



(** ** Lemmas on the display blocks *)

Lemma eqb_col_names :
  String.eqb "priority_score" "resolved" = false /\ String.eqb "resolved" "priority_score" = false
  /\ String.eqb "department" "resolved" = false /\ String.eqb "department" "priority_score" = false
  /\ String.eqb "severity" "resolved" = false /\ String.eqb "severity" "priority_score" = false.
Proof. repeat split; reflexivity. Qed.







Lemma department_block_output d :
  has_col d "resolved" && has_col d "department" = true ->
  fst (department_block d) =
  ESubheader "Department-wise Pending Issues" ::
  match value_counts (mask_filter (map unresolved_row (col d "resolved")) (col d "department")) with
  | [] => [EInfo "No unresolved issues found."]
  | u => [EBar u]
  end.
Proof.
  intro H. unfold department_block. rewrite H. cbv zeta.
  rewrite col_filter_rows, !col_set_col. simpl. rewrite map_map.
  destruct (value_counts _); reflexivity.
Qed.


Lemma insights_block_output d :
  has_col d "priority_score" = true ->
  let data1 := set_col d "priority_score" (map to_str_cell (col d "priority_score")) in
  let mask := map is_high (map to_str_cell (col d "priority_score")) in
  fst (insights_block d) =
  ESubheader "Key Insights" ::
  EMarkdown ("Total High Priority Cases: " ++ string_of_nat (nrows (filter_rows data1 mask)))%string ::
  (if has_col d "department"
   then [EMarkdown "Departments with Most High Priority Issues:";
         ETable (firstn 5 (value_counts (mask_filter mask (col d "department"))))]
   else []).
Proof.
  intro H. unfold insights_block, high_priority_of. rewrite H. cbv zeta.
  rewrite has_col_filter_rows, has_col_set_col, col_filter_rows, !col_set_col. simpl.
  reflexivity.
Qed.








(** ** C9 *)



(** ** C10 *)



(** ** C2 *)




(** ** C3 *)





Ltac names_eqb := cbv [String.eqb Ascii.eqb Bool.eqb orb].







(** * Further properties of the script *)

(** ** [value_counts] *)

Lemma value_eq_dec (v w : value) : {v = w} + {v <> w}.
Proof. decide equality; auto using Z.eq_dec, bool_dec, string_dec. Defined.

Lemma value_eqb_spec v w : value_eqb v w = true <-> v = w.
Proof.
  destruct v, w; simpl; split; intro H; try discriminate; try congruence.
  - f_equal; now apply Z.eqb_eq.
  - injection H as ->; apply Z.eqb_refl.
  - f_equal; now apply Bool.eqb_prop.
  - injection H as ->; apply Bool.eqb_reflx.
  - f_equal; now apply String.eqb_eq.
  - injection H as ->; apply String.eqb_refl.
Qed.

Lemma value_eqb_false v w : value_eqb v w = false <-> v <> w.
Proof.
  rewrite <- (value_eqb_spec v w). destruct (value_eqb v w); split; congruence.
Qed.

Lemma value_eqb_sym v w : value_eqb v w = value_eqb w v.
Proof.
  destruct (value_eqb v w) eqn:H, (value_eqb w v) eqn:H'; auto.
  - apply value_eqb_spec in H; subst; apply value_eqb_false in H'; congruence.
  - apply value_eqb_spec in H'; subst; apply value_eqb_false in H; congruence.
Qed.

Lemma existsb_value_in v seen : existsb (value_eqb v) seen = true <-> In v seen.
Proof.
  rewrite existsb_exists. split.
  - intros [w [Hw Hvw]]. apply value_eqb_spec in Hvw. now subst.
  - intro H. exists v. split; [exact H|]. now apply value_eqb_spec.
Qed.

Lemma distinct_in seen vs v : In v (distinct seen vs) <-> In v vs /\ ~ In v seen.
Proof.
  revert seen; induction vs as [|x vs IH]; intro seen; simpl; [tauto|].
  destruct (existsb (value_eqb x) seen) eqn:Hx.
  - apply existsb_value_in in Hx. rewrite IH. split; [tauto|].
    intros [[<-|H] H']; [contradiction|tauto].
  - assert (Hx' : ~ In x seen) by (rewrite <- existsb_value_in; congruence).
    simpl. rewrite IH. simpl.
    destruct (value_eq_dec x v) as [<-|Hne]; [tauto|]. intuition.
Qed.

Lemma distinct_nodup seen vs : NoDup (distinct seen vs).
Proof.
  revert seen; induction vs as [|x vs IH]; intro seen; simpl; [constructor|].
  destruct (existsb (value_eqb x) seen); [apply IH|].
  constructor; [|apply IH]. rewrite distinct_in. simpl. tauto.
Qed.

Lemma count_of_cons v x vs :
  count_of v (x :: vs) = ((if value_eqb v x then 1 else 0) + count_of v vs)%nat.
Proof. unfold count_of; simpl. destruct (value_eqb v x); reflexivity. Qed.

Lemma split_seen x seen l :
  ~ In x seen ->
  List.length (filter (fun y => negb (existsb (value_eqb y) seen)) l)
  = (count_of x l + List.length (filter (fun y => negb (existsb (value_eqb y) (x :: seen))) l))%nat.
Proof.
  intro Hx. induction l as [|y l IH]; [reflexivity|].
  rewrite count_of_cons. simpl. simpl in IH.
  destruct (value_eqb y x) eqn:Hyx.
  - apply value_eqb_spec in Hyx; subst y. rewrite (proj2 (value_eqb_spec x x) eq_refl).
    assert (Hn : existsb (value_eqb x) seen = false)
      by (destruct (existsb (value_eqb x) seen) eqn:E; [apply existsb_value_in in E; contradiction|reflexivity]).
    rewrite Hn; simpl. rewrite IH. lia.
  - rewrite value_eqb_sym, Hyx. simpl.
    destruct (existsb (value_eqb y) seen); simpl; lia.
Qed.

Lemma distinct_sum seen vs :
  list_sum (map (fun v => count_of v vs) (distinct seen vs))
  = List.length (filter (fun y => negb (existsb (value_eqb y) seen)) vs).
Proof.
  revert seen; induction vs as [|x vs IH]; intro seen; [reflexivity|].
  simpl distinct. simpl filter.
  destruct (existsb (value_eqb x) seen) eqn:Hx; simpl negb; cbv iota.
  - rewrite <- IH. f_equal. apply map_ext_in. intros v Hv.
    apply distinct_in in Hv as [_ Hv]. apply existsb_value_in in Hx.
    rewrite count_of_cons.
    destruct (value_eqb v x) eqn:E; [apply value_eqb_spec in E; subst; contradiction|reflexivity].
  - assert (Hx' : ~ In x seen) by (rewrite <- existsb_value_in; congruence).
    simpl. rewrite count_of_cons, (proj2 (value_eqb_spec x x) eq_refl).
    rewrite (map_ext_in _ (fun v => count_of v vs)).
    + rewrite IH, (split_seen x seen vs Hx'). simpl. lia.
    + intros v Hv. apply distinct_in in Hv as [_ Hv]. rewrite count_of_cons.
      destruct (value_eqb v x) eqn:E; [apply value_eqb_spec in E; subst; simpl in Hv; tauto|reflexivity].
Qed.

Lemma insert_desc_perm p l : Permutation (p :: l) (insert_desc p l).
Proof.
  induction l as [|q l IH]; simpl; [reflexivity|].
  destruct (snd p <=? snd q)%nat; [|reflexivity].
  transitivity (q :: p :: l); [constructor|]. now constructor.
Qed.

Lemma sort_desc_perm acc l : Permutation (acc ++ l) (sort_desc_aux acc l).
Proof.
  revert acc; induction l as [|p l IH]; intro acc; simpl; [now rewrite app_nil_r|].
  rewrite <- IH. rewrite <- (insert_desc_perm p acc). simpl.
  symmetry. apply Permutation_middle.
Qed.

Lemma insert_desc_sorted p l : counts_desc l -> counts_desc (insert_desc p l).
Proof.
  unfold counts_desc. induction l as [|q l IH]; simpl; intro Hs.
  - repeat constructor.
  - apply StronglySorted_inv in Hs as [Hl Hq].
    destruct (snd p <=? snd q)%nat eqn:E.
    + apply Nat.leb_le in E. constructor; [now apply IH|].
      rewrite Forall_forall in Hq |- *. intros r Hr.
      apply (Permutation_in _ (Permutation_sym (insert_desc_perm p l))) in Hr.
      destruct Hr as [<-|Hr]; [exact E|now apply Hq].
    + apply Nat.leb_gt in E. constructor; [constructor; assumption|].
      constructor; [simpl; lia|]. rewrite Forall_forall in Hq |- *.
      intros r Hr. specialize (Hq r Hr). lia.
Qed.

Lemma sort_desc_sorted acc l : counts_desc acc -> counts_desc (sort_desc_aux acc l).
Proof.
  revert acc; induction l as [|p l IH]; intros acc H; simpl; [exact H|].
  apply IH, insert_desc_sorted, H.
Qed.

Lemma value_counts_perm vs : Permutation (value_counts_raw vs) (value_counts vs).
Proof. unfold value_counts, value_counts_raw. apply (sort_desc_perm []). Qed.

Lemma value_counts_in vs k n :
  In (k, n) (value_counts vs) <-> In k vs /\ k <> VNaN /\ n = count_of k vs.
Proof.
  split.
  - intro H. apply (Permutation_in _ (Permutation_sym (value_counts_perm vs))) in H.
    unfold value_counts_raw in H. apply in_map_iff in H as [v [Hv Hin]].
    injection Hv as <- <-. apply distinct_in in Hin as [H1 H2]. simpl in H2.
    split; [exact H1|split; [intro; subst; tauto|reflexivity]].
  - intros [H1 [H2 ->]]. apply (Permutation_in _ (value_counts_perm vs)).
    unfold value_counts_raw. apply in_map_iff. exists k. split; [reflexivity|].
    apply distinct_in. simpl. split; [exact H1|]. intros [H|[]]; congruence.
Qed.

Lemma value_counts_nodup vs : NoDup (map fst (value_counts vs)).
Proof.
  apply (Permutation_NoDup (Permutation_map fst (value_counts_perm vs))).
  unfold value_counts_raw. rewrite map_map. simpl. rewrite map_id. apply distinct_nodup.
Qed.

Lemma value_counts_sum vs :
  list_sum (map snd (value_counts vs)) = List.length (filter non_missing vs).
Proof.
  rewrite <- (Permutation_list_sum (Permutation_map snd (value_counts_perm vs))).
  unfold value_counts_raw. rewrite map_map. simpl. rewrite distinct_sum.
  f_equal. apply filter_ext. intro y. unfold non_missing. simpl. now rewrite orb_false_r.
Qed.

Lemma value_counts_sorted_desc vs : counts_desc (value_counts vs).
Proof. apply sort_desc_sorted. constructor. Qed.

Lemma value_counts_nil_iff vs : value_counts vs = [] <-> forall v, In v vs -> v = VNaN.
Proof.
  split.
  - intros H v Hv. destruct (value_eq_dec v VNaN) as [|Hne]; [assumption|].
    assert (Hin : In (v, count_of v vs) (value_counts vs)) by (apply value_counts_in; auto).
    rewrite H in Hin; contradiction.
  - intro H. destruct (value_counts vs) as [|[k n] l] eqn:E; [reflexivity|].
    assert (Hin : In (k, n) (value_counts vs)) by (rewrite E; left; reflexivity).
    apply value_counts_in in Hin as [H1 [H2 _]]. exfalso. exact (H2 (H k H1)).
Qed.

Lemma strongly_sorted_app {A} (R : A -> A -> Prop) l1 l2 a b :
  StronglySorted R (l1 ++ l2) -> In a l1 -> In b l2 -> R a b.
Proof.
  induction l1 as [|x l1 IH]; simpl; [tauto|].
  intros Hs [<-|Ha] Hb; apply StronglySorted_inv in Hs as [Hs Hf].
  - rewrite Forall_forall in Hf. apply Hf, in_or_app. now right.
  - now apply IH.
Qed.

(** ** [value_counts], the aggregation behind every chart *)

(** [value_counts] lists every non-missing value of the column exactly
    once, each with the number of cells equal to it, and nothing else. *)
Theorem value_counts_entries vs :
  NoDup (map fst (value_counts vs))
  /\ forall k n, In (k, n) (value_counts vs) <-> In k vs /\ k <> VNaN /\ n = count_of k vs.
Proof. split; [apply value_counts_nodup | apply value_counts_in]. Qed.

(** [value_counts] is ordered by non-increasing count. *)
Theorem value_counts_sorted vs : counts_desc (value_counts vs).
Proof. apply value_counts_sorted_desc. Qed.

(** The counts of [value_counts] add up to the number of non-missing cells;
    it is empty exactly when every cell is missing. *)
Theorem value_counts_total vs :
  list_sum (map snd (value_counts vs)) = List.length (filter non_missing vs)
  /\ (value_counts vs = [] <-> forall v, In v vs -> v = VNaN).
Proof. split; [apply value_counts_sum | apply value_counts_nil_iff]. Qed.

(** ** The department backlog chart *)

(** With [resolved] and [department] present: the "No unresolved issues
    found." message appears exactly when every unresolved row has a
    missing department (in particular when no row is unresolved), and
    otherwise the bars add up to the number of unresolved rows that have a
    department. *)
Theorem department_backlog_total d :
  has_col d "resolved" && has_col d "department" = true ->
  let depts := mask_filter (map unresolved_row (col d "resolved")) (col d "department") in
  (fst (department_block d) =
     [ESubheader "Department-wise Pending Issues"; EInfo "No unresolved issues found."]
   <-> forall v, In v depts -> v = VNaN)
  /\ (forall u, fst (department_block d) = [ESubheader "Department-wise Pending Issues"; EBar u] ->
        u = value_counts depts /\ list_sum (map snd u) = List.length (filter non_missing depts)).
Proof.
  intros H depts. rewrite (department_block_output d H). fold depts.
  split.
  - rewrite <- value_counts_nil_iff.
    destruct (value_counts depts) eqn:E; split; intro Hx; try reflexivity; try discriminate.
  - intros u Hu. destruct (value_counts depts) as [|p l] eqn:E; [discriminate|].
    injection Hu as <-. split; [reflexivity|]. rewrite <- E. apply value_counts_sum.
Qed.

Lemma department_backlog_total_witness :
  has_col sample "resolved" && has_col sample "department" = true
  /\ list_sum (map snd (value_counts
       (mask_filter (map unresolved_row (col sample "resolved")) (col sample "department")))) = 2%nat.
Proof.
  split; [reflexivity|].
  destruct (proj2 (department_backlog_total sample eq_refl)
              [(VStr "Water", 2%nat)] eq_refl) as [<- Hs].
  reflexivity.
Defined.

(** ** The key-insights department table *)

(** With [priority_score] and [department] present, the table lists at
    most five departments, each with its number of high-priority rows, and
    no department left out has more high-priority rows than a listed one. *)
Theorem insights_department_table d :
  has_col d "priority_score" = true -> has_col d "department" = true ->
  let hp_depts := mask_filter (map is_high (map to_str_cell (col d "priority_score")))
                              (col d "department") in
  exists u, In (ETable u) (fst (insights_block d))
    /\ (List.length u <= 5)%nat
    /\ (forall k n, In (k, n) u -> k <> VNaN /\ n = count_of k hp_depts)
    /\ (forall k n k', In (k, n) u -> In k' hp_depts -> k' <> VNaN -> ~ In k' (map fst u) ->
          (count_of k' hp_depts <= n)%nat).
Proof.
  intros HP HD hp_depts. exists (firstn 5 (value_counts hp_depts)).
  split; [|split; [|split]].
  - rewrite (insights_block_output d HP). cbv zeta. rewrite HD. fold hp_depts.
    right; right; right; left; reflexivity.
  - rewrite length_firstn. lia.
  - intros k n Hin.
    assert (Hv : In (k, n) (value_counts hp_depts)).
    { rewrite <- (firstn_skipn 5 (value_counts hp_depts)). apply in_or_app. now left. }
    apply value_counts_in in Hv. tauto.
  - intros k n k' Hin Hk' Hnan Hout.
    assert (Hin' : In (k', count_of k' hp_depts) (value_counts hp_depts))
      by (apply value_counts_in; auto).
    rewrite <- (firstn_skipn 5 (value_counts hp_depts)) in Hin'.
    apply in_app_or in Hin' as [Hf|Hs].
    + exfalso. apply Hout. apply in_map_iff. exists (k', count_of k' hp_depts). auto.
    + pose proof (value_counts_sorted_desc hp_depts) as Hsort. unfold counts_desc in Hsort.
      rewrite <- (firstn_skipn 5 (value_counts hp_depts)) in Hsort.
      exact (strongly_sorted_app _ _ _ _ _ Hsort Hin Hs).
Qed.

Lemma insights_department_table_witness :
  has_col sample "priority_score" = true /\ has_col sample "department" = true
  /\ exists u, In (ETable u) (fst (insights_block sample)) /\ (List.length u <= 5)%nat.
Proof.
  split; [reflexivity|split; [reflexivity|]].
  destruct (insights_department_table sample eq_refl eq_refl) as [u [H1 [H2 _]]].
  exists u; split; assumption.
Defined.

(** ** ENV SETUP and the page header *)

Lemma setup_log_eq e :
  setup_log e =
  ((match env_api_key e with
    | Some k => if String.eqb k "" then
                  [EError "Missing Gemini API key. Please set GOOGLE_API_KEY in .env file."]
                else [EConfigure k]
    | None => [EError "Missing Gemini API key. Please set GOOGLE_API_KEY in .env file."]
    end) ++
   (match env_credentials e with
    | Some p => if negb (String.eqb p "") && env_path_exists e p then []
                else [EWarning "Google credentials file not found. Will try local CSV instead."]
    | None => [EWarning "Google credentials file not found. Will try local CSV instead."]
    end) ++
   [ETitle "AI-Powered Governance Dashboard";
    EWrite "Transforming Citizen Service Delivery with Predictive Insights"])%list.
Proof.
  unfold setup_log, setup, bind, emit, ret.
  destruct (env_api_key e) as [k|]; [destruct (String.eqb k "")|];
  (destruct (env_credentials e) as [p|];
   [destruct (negb (String.eqb p "") && env_path_exists e p)|]); reflexivity.
Qed.

Ltac in_list :=
  repeat match goal with
  | H : In _ (_ ++ _) |- _ => apply in_app_or in H as [H|H]
  | H : In _ (_ :: _) |- _ => destruct H as [H|H]
  | H : In _ [] |- _ => destruct H
  | H : _ \/ _ |- _ => destruct H as [H|H]
  | H : False |- _ => destruct H
  end.

(** The missing-key error is shown exactly when [GOOGLE_API_KEY] is unset
    or empty; otherwise the API is configured with that key, and only then. *)
Theorem setup_api_key e :
  (In (EError "Missing Gemini API key. Please set GOOGLE_API_KEY in .env file.") (setup_log e)
   <-> env_api_key e = None \/ env_api_key e = Some "")
  /\ (forall k, In (EConfigure k) (setup_log e) <-> env_api_key e = Some k /\ k <> "").
Proof.
  rewrite setup_log_eq. split.
  - destruct (env_api_key e) as [k|] eqn:Ek.
    + destruct (String.eqb_spec k "") as [->|Hne].
      * split; [auto|intros _; now left].
      * split.
        -- intro H. exfalso. destruct (env_credentials e) as [p|];
             [destruct (_ && _)|]; simpl in H; in_list; discriminate.
        -- intros [H|H]; [discriminate|injection H as ->; contradiction].
    + split; [auto|intros _; now left].
  - intro k. destruct (env_api_key e) as [k'|] eqn:Ek.
    + destruct (String.eqb_spec k' "") as [->|Hne].
      * split; [|intros [H1 H2]; injection H1 as <-; contradiction].
        intro H. exfalso. destruct (env_credentials e) as [p|];
          [destruct (_ && _)|]; simpl in H; in_list; discriminate.
      * split.
        -- intro H. destruct (env_credentials e) as [p|];
             [destruct (_ && _)|]; simpl in H; in_list; try discriminate;
             injection H as ->; auto.
        -- intros [H1 H2]. injection H1 as <-. now left.
    + split; [|intros [H1 _]; discriminate].
      intro H. exfalso. destruct (env_credentials e) as [p|];
        [destruct (_ && _)|]; simpl in H; in_list; discriminate.
Qed.

(** The credentials warning is shown exactly when
    [GOOGLE_APPLICATION_CREDENTIALS] is not a non-empty path that exists. *)
Theorem setup_credentials_warning e :
  In (EWarning "Google credentials file not found. Will try local CSV instead.") (setup_log e)
  <-> ~ (exists p, env_credentials e = Some p /\ p <> ""%string /\ env_path_exists e p = true).
Proof.
  rewrite setup_log_eq.
  destruct (env_credentials e) as [p|] eqn:Ec.
  - destruct (negb (String.eqb p "") && env_path_exists e p) eqn:Hp.
    + apply andb_prop in Hp as [H1 H2]. apply negb_true_iff, String.eqb_neq in H1.
      split.
      * intro H. exfalso. destruct (env_api_key e) as [k|]; [destruct (String.eqb k "")|];
          simpl in H; in_list; discriminate.
      * intro H. exfalso. apply H. exists p. auto.
    + split.
      * intros _ [q [Hq [Hne Hx]]]. injection Hq as <-.
        apply String.eqb_neq in Hne. rewrite Hne, Hx in Hp. discriminate.
      * intros _. apply in_or_app. right. now left.
  - split.
    + intros _ [q [Hq _]]. discriminate.
    + intros _. apply in_or_app. right. now left.
Qed.

Lemma setup_credentials_warning_witness :
  ~ (exists p, env_credentials env_sample = Some p /\ p <> ""%string
               /\ env_path_exists env_sample p = true)
  /\ In (EWarning "Google credentials file not found. Will try local CSV instead.")
        (setup_log env_sample).
Proof.
  assert (H : ~ (exists p, env_credentials env_sample = Some p /\ p <> ""%string
                           /\ env_path_exists env_sample p = true))
    by (intros [p [Hp _]]; discriminate).
  split; [exact H | apply (proj2 (setup_credentials_warning env_sample)); exact H].
Defined.


(** ** The summary table *)





(** ** The Gemini AI summary *)




(** When the response arrives but reading its text fails, the page shows
    the success message and then the error message. *)
Theorem ai_success_then_error e d ex :
  env_clicked e = true -> env_model e model_name = inr tt ->
  env_generate e (ai_prompt e d) = inr (inl ex) ->
  ai_log e d = [ESubheader "Gemini AI Summary of Citizen Feedback"; EGenerate (ai_prompt e d);
                ESuccess "Gemini AI Summary Generated"; EError (ai_error_msg ex)].
Proof.
  intros Hc Hm Hg. unfold ai_prompt in *.
  unfold ai_log, ai_block, bind, emit, ret, try_except, ai_body, raise.
  rewrite Hc, Hm. cbv zeta. rewrite Hg. reflexivity.
Qed.

Lemma ai_success_then_error_witness :
  ai_log env_blocked_response sample =
  [ESubheader "Gemini AI Summary of Citizen Feedback"; EGenerate (ai_prompt env_blocked_response sample);
   ESuccess "Gemini AI Summary Generated";
   EError (ai_error_msg (OtherError "ValueError" "response.text: no valid Part"))].
Proof.
  apply (ai_success_then_error env_blocked_response sample
           (OtherError "ValueError" "response.text: no valid Part")); reflexivity.
Defined.

(** ** Re-running the mutating blocks *)

Lemma lower_char_idem c : lower_char (lower_char c) = lower_char c.
Proof. destruct c as [[] [] [] [] [] [] [] []]; reflexivity. Qed.

Lemma is_space_lower_char c : is_space (lower_char c) = is_space c.
Proof. destruct c as [[] [] [] [] [] [] [] []]; reflexivity. Qed.

Lemma str_app_nil_r s : (s ++ "")%string = s.
Proof. induction s as [|c s IH]; simpl; [reflexivity|now rewrite IH]. Qed.

Lemma str_app_assoc s t u : (s ++ (t ++ u))%string = ((s ++ t) ++ u)%string.
Proof. induction s as [|c s IH]; simpl; [reflexivity|now rewrite IH]. Qed.

Lemma str_lower_app s t : str_lower (s ++ t) = (str_lower s ++ str_lower t)%string.
Proof. induction s as [|c s IH]; simpl; [reflexivity|now rewrite IH]. Qed.

Lemma str_lower_idem s : str_lower (str_lower s) = str_lower s.
Proof. induction s as [|c s IH]; simpl; [reflexivity|now rewrite IH, lower_char_idem]. Qed.

Lemma str_rev_lower s : str_rev (str_lower s) = str_lower (str_rev s).
Proof. induction s as [|c s IH]; simpl; [reflexivity|now rewrite IH, str_lower_app]. Qed.

Lemma lstrip_lower s : lstrip (str_lower s) = str_lower (lstrip s).
Proof.
  induction s as [|c s IH]; simpl; [reflexivity|].
  rewrite is_space_lower_char. destruct (is_space c); [exact IH|reflexivity].
Qed.

Lemma strip_lower s : str_strip (str_lower s) = str_lower (str_strip s).
Proof. unfold str_strip. now rewrite lstrip_lower, str_rev_lower, lstrip_lower, str_rev_lower. Qed.

Lemma str_rev_app s t : str_rev (s ++ t) = (str_rev t ++ str_rev s)%string.
Proof.
  induction s as [|c s IH]; simpl; [now rewrite str_app_nil_r|].
  now rewrite IH, str_app_assoc.
Qed.

Lemma str_rev_involutive s : str_rev (str_rev s) = s.
Proof. induction s as [|c s IH]; simpl; [reflexivity|now rewrite str_rev_app, IH]. Qed.

(** A string that does not start with whitespace. *)
Definition no_lead (s : string) : bool :=
  match s with String c _ => negb (is_space c) | EmptyString => true end.

Lemma lstrip_no_lead s : no_lead (lstrip s) = true.
Proof.
  induction s as [|c s IH]; simpl; [reflexivity|].
  destruct (is_space c) eqn:Hc; [exact IH|simpl; now rewrite Hc].
Qed.

Lemma lstrip_fix s : no_lead s = true -> lstrip s = s.
Proof.
  destruct s as [|c s]; simpl; [reflexivity|].
  intro H. destruct (is_space c); [discriminate|reflexivity].
Qed.

Lemma lstrip_idem s : lstrip (lstrip s) = lstrip s.
Proof. apply lstrip_fix, lstrip_no_lead. Qed.

Lemma lstrip_suffix s : exists p, s = (p ++ lstrip s)%string.
Proof.
  induction s as [|c s IH]; simpl; [now exists ""%string|].
  destruct (is_space c).
  - destruct IH as [p Hp]. exists (String c p). simpl. now rewrite <- Hp.
  - now exists ""%string.
Qed.

Lemma no_lead_rev_lstrip w :
  no_lead (str_rev w) = true -> no_lead (str_rev (lstrip w)) = true.
Proof.
  destruct (lstrip_suffix w) as [p Hp]. rewrite Hp at 1. rewrite str_rev_app.
  destruct (str_rev (lstrip w)) as [|c r]; simpl; auto.
Qed.

Lemma strip_idem s : str_strip (str_strip s) = str_strip s.
Proof.
  unfold str_strip at 2 3.
  set (u := lstrip (str_rev (lstrip s))).
  unfold str_strip.
  assert (Hu : no_lead (str_rev u) = true).
  { unfold u. apply no_lead_rev_lstrip. rewrite str_rev_involutive. apply lstrip_no_lead. }
  rewrite (lstrip_fix _ Hu), str_rev_involutive. unfold u at 1. now rewrite lstrip_idem.
Qed.

Lemma norm_resolved_idem v : norm_resolved (norm_resolved v) = norm_resolved v.
Proof.
  unfold norm_resolved at 1 2. cbn [py_str].
  now rewrite strip_lower, str_lower_idem, strip_idem.
Qed.

Lemma to_str_cell_idem v : to_str_cell (to_str_cell v) = to_str_cell v.
Proof. reflexivity. Qed.

Lemma set_col_twice d c x y : set_col (set_col d c x) c y = set_col d c y.
Proof.
  induction d as [|[n ws] d IH]; simpl.
  - now rewrite String.eqb_refl.
  - destruct (String.eqb c n) eqn:Hc; simpl; rewrite Hc; [reflexivity|now rewrite IH].
Qed.

Lemma block_pair (p : list event * frame) : p = (fst p, snd p).
Proof. now destruct p. Qed.

(** Running the department block or the key-insights block again, on the
    data it produced, renders the same output and changes nothing more:
    their rewrites of [resolved] and [priority_score] are idempotent. *)
Theorem mutating_blocks_idempotent d :
  department_block (snd (department_block d)) = (fst (department_block d), snd (department_block d))
  /\ insights_block (snd (insights_block d)) = (fst (insights_block d), snd (insights_block d)).
Proof.
  split.
  - rewrite (block_pair (department_block (snd (department_block d)))). f_equal.
    + rewrite department_effect.
      destruct (has_col d "resolved" && has_col d "department") eqn:H; [|reflexivity].
      assert (H1 : has_col (set_col d "resolved" (map norm_resolved (col d "resolved"))) "resolved"
                   && has_col (set_col d "resolved" (map norm_resolved (col d "resolved"))) "department"
                   = true)
        by (apply andb_prop in H as [_ Hd]; rewrite !has_col_set_col; names_eqb;
            rewrite Hd; reflexivity).
      rewrite (department_block_output _ H1), (department_block_output _ H).
      rewrite !col_set_col. names_eqb. rewrite map_map.
      assert (E : map (fun x => unresolved_row (norm_resolved x)) (col d "resolved")
                  = map unresolved_row (col d "resolved"))
        by (apply map_ext; intro v; unfold unresolved_row; now rewrite norm_resolved_idem).
      now rewrite E.
    + rewrite !department_effect.
      destruct (has_col d "resolved" && has_col d "department") eqn:H; [|now rewrite H].
      pose proof (andb_prop _ _ H) as [_ Hd].
      rewrite !has_col_set_col. names_eqb. rewrite Hd. cbn [andb].
      rewrite col_set_col. names_eqb. rewrite map_map, set_col_twice.
      f_equal. apply map_ext, norm_resolved_idem.
  - rewrite (block_pair (insights_block (snd (insights_block d)))). f_equal.
    + rewrite insights_effect.
      destruct (has_col d "priority_score") eqn:H; [|reflexivity].
      assert (H1 : has_col (set_col d "priority_score" (map to_str_cell (col d "priority_score")))
                     "priority_score" = true)
        by (rewrite has_col_set_col; names_eqb; reflexivity).
      rewrite (insights_block_output _ H1), (insights_block_output _ H). cbv zeta.
      rewrite has_col_set_col, !col_set_col. names_eqb.
      rewrite set_col_twice, !map_map. reflexivity.
    + rewrite !insights_effect.
      destruct (has_col d "priority_score") eqn:H; [|now rewrite H].
      rewrite has_col_set_col. names_eqb.
      rewrite col_set_col. names_eqb. rewrite map_map, set_col_twice. reflexivity.
Qed.
